(** * google-books: a shallow embedding of [lib/google-books.js]

    The module exports one constructor, [GoogleBooks(options)], whose closure
    holds a [settings] object and a lazily created [searchCache], and exposes
    [search] and [searchBy]; both go through the private [searchSingle].

    Callbacks [next(err, body)] are modelled as returned results: [Err e] for
    [next(err)] (and for an exception caught by the [try] block, which the
    source forwards to [next]), [Ok body] for [next(null, body)].  The closure
    variables and the outside world (clock, transport) are threaded through a
    state-and-result monad. *)

From Stdlib Require Import ZArith Lia Ascii.
From stdpp Require Import base strings gmap list pretty.

Open Scope string_scope.
Open Scope Z_scope.
Open Scope list_scope.

(** ** JavaScript values and strings *)

Module JS.

(** The values that the option bags of this library carry. Numbers are the
    integers plus [NaN]. *)
Inductive jsval : Type :=
  | JUndefined
  | JNull
  | JBool (b : bool)
  | JNum (z : Z)
  | JNaN
  | JStr (s : string).

Definition jsval_eqb (a b : jsval) : bool :=
  match a, b with
  | JUndefined, JUndefined | JNull, JNull | JNaN, JNaN => true
  | JBool x, JBool y => Bool.eqb x y
  | JNum x, JNum y => Z.eqb x y
  | JStr x, JStr y => String.eqb x y
  | _, _ => false
  end.

(** [ToBoolean]: the test made by [||], [!] and [if]. *)
Definition truthy (v : jsval) : bool :=
  match v with
  | JUndefined | JNull | JNaN => false
  | JBool b => b
  | JNum z => negb (z =? 0)
  | JStr s => negb (String.eqb s "")
  end.

(** [a || b] *)
Definition js_or (a b : jsval) : jsval := if truthy a then a else b.

(** [ToString], as done by [v + ''] and by a property key. *)
Definition to_string (v : jsval) : string :=
  match v with
  | JUndefined => "undefined"
  | JNull => "null"
  | JBool true => "true"
  | JBool false => "false"
  | JNum z => pretty z
  | JNaN => "NaN"
  | JStr s => s
  end.

Fixpoint string_drop (n : nat) (s : string) : string :=
  match n, s with
  | O, _ => s
  | S n', String _ s' => string_drop n' s'
  | S _, EmptyString => EmptyString
  end.

(** [s.indexOf(pat) === 0] *)
Definition starts_with (pat s : string) : bool := String.prefix pat s.

(** [s.replace(pat, '')] with a string pattern: only the first occurrence of
    [pat] is removed. *)
Fixpoint replace_first (pat s : string) : string :=
  if String.prefix pat s then string_drop (String.length pat) s
  else match s with
       | EmptyString => EmptyString
       | String c s' => String c (replace_first pat s')
       end.

(** Removal of every occurrence of a one-character pattern; what a global
    replace would do. It is not used by the source and serves to state what
    stripping all quote characters means. *)
Fixpoint remove_all (c : ascii) (s : string) : string :=
  match s with
  | EmptyString => EmptyString
  | String d s' => if Ascii.eqb c d then remove_all c s' else String d (remove_all c s')
  end.

Fixpoint contains_char (c : ascii) (s : string) : bool :=
  match s with
  | EmptyString => false
  | String d s' => Ascii.eqb c d || contains_char c s'
  end.

(** White space, the class [\s] restricted to ASCII. *)
Definition is_space (c : ascii) : bool :=
  let n := nat_of_ascii c in
  ((9 <=? n) && (n <=? 13))%nat || (n =? 32)%nat.

Fixpoint all_space (s : string) : bool :=
  match s with
  | EmptyString => true
  | String c s' => is_space c && all_space s'
  end.

Fixpoint skip_space (s : string) : string :=
  match s with
  | String c s' => if is_space c then skip_space s' else s
  | EmptyString => EmptyString
  end.

Definition digit_val (c : ascii) : option Z :=
  let n := nat_of_ascii c in
  if ((48 <=? n) && (n <=? 57))%nat then Some (Z.of_nat n - 48) else None.

Fixpoint parse_digits (acc : Z) (s : string) : Z :=
  match s with
  | String c s' =>
      match digit_val c with
      | Some d => parse_digits (10 * acc + d) s'
      | None => acc
      end
  | EmptyString => acc
  end.

(** An optional sign in front of the digits. *)
Definition split_sign (s : string) : bool * string :=
  match s with
  | String "-" r => (true, r)
  | String "+" r => (false, r)
  | _ => (false, s)
  end.

Fixpoint has_digit (s : string) : bool :=
  match s with
  | EmptyString => false
  | String c s' => match digit_val c with Some _ => true | None => has_digit s' end
  end.

(** [parseInt(s, 10)]; [None] stands for [NaN]. *)
Definition parseInt (s : string) : option Z :=
  let s := skip_space s in
  let '(neg, s) := split_sign s in
  match s with
  | String c _ =>
      match digit_val c with
      | Some _ => Some (if neg : bool then - parse_digits 0 s else parse_digits 0 s)
      | None => None
      end
  | EmptyString => None
  end.

(** Plain objects used as records of query parameters: own properties in
    insertion order (keys that are array indices, which an engine lists
    first, do not occur among query parameters). *)
Definition jsobj : Type := list (string * jsval).

Fixpoint obj_get (k : string) (o : jsobj) : jsval :=
  match o with
  | [] => JUndefined
  | (k', v) :: o' => if String.eqb k k' then v else obj_get k o'
  end.

(** [o[k] = v]: an existing property keeps its place, a new one goes last. *)
Fixpoint obj_set (k : string) (v : jsval) (o : jsobj) : jsobj :=
  match o with
  | [] => [(k, v)]
  | (k', v') :: o' => if String.eqb k k' then (k', v) :: o' else (k', v') :: obj_set k v o'
  end.

(** [extend(target, src)] of the [extend] package, shallow form: every
    property of [src] that is not [undefined] is assigned on [target]; the
    result is [target] itself, mutated. *)
Definition extend (target src : jsobj) : jsobj :=
  fold_left (fun t kv => match snd kv with
                         | JUndefined => t
                         | v => obj_set (fst kv) v t
                         end) src target.

End JS.
Export JS.

(** ** The packages the module depends on

    [validator], [querystring], [async] and [memoizee] are dependencies, not
    part of this repository; each is given here by the behaviour of the calls
    that the source makes. *)

Module Validator.

(** [check(v, msg)] stores [v] as a string: [''] for [undefined], [null] and
    [NaN], [v + ''] otherwise. *)
Definition check (v : jsval) : string :=
  match v with
  | JUndefined | JNull | JNaN => ""
  | _ => to_string v
  end.

(** [.notNull()] passes unless the stored string is ['']. *)
Definition notNull (s : string) : bool := negb (String.eqb s "").

(** [.notEmpty()] passes unless the stored string is white space only. *)
Definition notEmpty (s : string) : bool := negb (all_space s).

(** [sanitize(v).toInt()]: [parseInt] of the stored string, radix 10;
    [None] is [NaN]. *)
Definition sanitize (v : jsval) : string :=
  match v with
  | JUndefined | JNull => ""
  | _ => to_string v
  end.

Definition toInt (s : string) : option Z := parseInt s.

End Validator.

Module QueryString.

Definition unreserved (c : ascii) : bool :=
  let n := nat_of_ascii c in
  (((48 <=? n) && (n <=? 57)) || ((65 <=? n) && (n <=? 90)) || ((97 <=? n) && (n <=? 122)))%nat
  || contains_char c "-_.!~*'()".

Definition hex_digit (n : nat) : ascii :=
  ascii_of_nat (if (n <? 10)%nat then 48 + n else 55 + n).

(** [querystring.escape], that is [encodeURIComponent] on the bytes of the
    string. *)
Fixpoint escape (s : string) : string :=
  match s with
  | EmptyString => EmptyString
  | String c s' =>
      if unreserved c then String c (escape s')
      else let n := nat_of_ascii c in
           String "%" (String (hex_digit (n / 16)) (String (hex_digit (n mod 16)) (escape s')))
  end.

Definition stringifyPrimitive (v : jsval) : string :=
  match v with
  | JStr s => s
  | JBool true => "true"
  | JBool false => "false"
  | JNum z => pretty z
  | _ => ""
  end.

Fixpoint join (sep : string) (l : list string) : string :=
  match l with
  | [] => ""
  | [x] => x
  | x :: l' => x +:+ sep +:+ join sep l'
  end.

(** [qs.stringify(obj)]: [key=value] pairs in property order, joined by [&]. *)
Definition stringify (o : jsobj) : string :=
  join "&" (map (fun kv => escape (fst kv) +:+ "=" +:+ escape (stringifyPrimitive (snd kv))) o).

End QueryString.

(** ** Errors and results *)

(** The errors that reach a callback. The first four are the [Error] objects
    that the source creates, named after their message. *)
Inductive Error : Type :=
  | InvalidQuery                 (* 'Invalid search term' *)
  | InvalidIdentifier            (* 'Invalid ID to search by' *)
  | MissingField                 (* 'Must provide search field' *)
  | UnsupportedField             (* 'Invalid field to search by' *)
  | TypeError (what : string)    (* raised by the engine *)
  | TransportError (e : string). (* [err] of [request.get], passed on as it is *)

Inductive result (A : Type) : Type :=
  | Ok (a : A)
  | Err (e : Error).
Arguments Ok {A} a.
Arguments Err {A} e.

Definition is_ok {A} (r : result A) : bool :=
  match r with Ok _ => true | Err _ => false end.

(** The decoded JSON body of a response, kept as its text. *)
Definition Body : Type := string.

(** ** Settings, requests and the state of one client *)

(** [settings.logger]: what matters to the control flow is whether it has a
    [log] method, since every use is [settings.logger.log(...)]. *)
Record Logger : Type := { has_log : bool }.

Record CacheOptions : Type := {
  maxAge : Z;
  async : bool;
  arity : Z;           (* the option [length] *)
  primitive : bool
}.

Record Settings : Type := {
  queryParams : jsobj;
  cacheOptions : CacheOptions;
  setsToFetch : jsval;
  apiUrl : string;
  logger : Logger
}.

(** What a caller may pass to the constructor; an absent field is
    [None], [undefined] or the empty object. *)
Record UserOptions : Type := {
  uo_queryParams : jsobj;
  uo_maxAge : option Z;
  uo_setsToFetch : jsval;
  uo_apiUrl : option string;
  uo_logger : option Logger
}.

(** The argument of [searchSingle], [search] and [searchBy]. *)
Record Options : Type := {
  query : jsval;
  startIndex : jsval;
  sets : jsval;
  field : jsval
}.

(** The object handed to [request.get]. *)
Record RequestOptions : Type := {
  uri : string;
  qs : jsobj;
  json : bool
}.

Inductive Event : Type :=
  | EvFetchStart (q : jsval) (start : jsval)  (* [searchSingle] entered *)
  | EvGet (r : RequestOptions)                (* [request.get] called *)
  | EvFetchDone (r : result Body).            (* [searchSingle] called [next] *)

Module Memoizee.

Record CacheEntry : Type := { ce_body : Body; ce_stored : Z }.

(** What [memoize(fn, settings.cacheOptions)] keeps, with the options
    [async], [length: 1] and [primitive] of [defaults]: the key is the first
    argument as a string; an entry is the body of a call that succeeded and
    is valid for [maxAge] milliseconds, for ever when [maxAge] is 0; a
    failed call leaves no entry. *)
Record Cache : Type := {
  c_maxAge : Z;
  c_entries : gmap string CacheEntry
}.

Definition memoize (o : CacheOptions) : Cache :=
  {| c_maxAge := maxAge o; c_entries := ∅ |}.

Definition entry_valid (age : Z) (t : Z) (e : CacheEntry) : bool :=
  (age <=? 0) || (t <? ce_stored e + age).

Definition cache_lookup (c : Cache) (t : Z) (key : string) : option Body :=
  match c_entries c !! key with
  | Some e => if entry_valid (c_maxAge c) t e then Some (ce_body e) else None
  | None => None
  end.

Definition cache_store (c : Cache) (t : Z) (key : string) (b : Body) : Cache :=
  {| c_maxAge := c_maxAge c;
     c_entries := <[key := {| ce_body := b; ce_stored := t |}]> (c_entries c) |}.

Definition cache_delete (c : Cache) (key : string) : Cache :=
  {| c_maxAge := c_maxAge c; c_entries := delete key (c_entries c) |}.

End Memoizee.
Export Memoizee.

(** The closure of one [GoogleBooks(options)] call together with the world it
    runs in: the clock, in milliseconds, and the events so far. *)
Record World : Type := {
  settings : Settings;
  searchCache : option Cache;
  now : Z;
  trace : list Event
}.

Definition set_settings (s : Settings) (w : World) : World :=
  {| settings := s; searchCache := searchCache w; now := now w; trace := trace w |}.

Definition set_searchCache (c : option Cache) (w : World) : World :=
  {| settings := settings w; searchCache := c; now := now w; trace := trace w |}.

Definition log_event (e : Event) (w : World) : World :=
  {| settings := settings w; searchCache := searchCache w; now := now w;
     trace := trace w ++ [e] |}.

(** Time passing between two calls. *)
Definition advance (d : Z) (w : World) : World :=
  {| settings := settings w; searchCache := searchCache w; now := now w + d;
     trace := trace w |}.

Definition set_queryParams (p : jsobj) (s : Settings) : Settings :=
  {| queryParams := p; cacheOptions := cacheOptions s; setsToFetch := setsToFetch s;
     apiUrl := apiUrl s; logger := logger s |}.

(** The requests that reached the transport, oldest first. *)
Fixpoint gets_of (t : list Event) : list RequestOptions :=
  match t with
  | [] => []
  | EvGet r :: t' => r :: gets_of t'
  | _ :: t' => gets_of t'
  end.

(** The start indices of the page fetches issued, oldest first. *)
Fixpoint fetches_of (t : list Event) : list jsval :=
  match t with
  | [] => []
  | EvFetchStart _ i :: t' => i :: fetches_of t'
  | _ :: t' => fetches_of t'
  end.

(** ** The monad of the closure: state, and a result or an error *)

Definition M (A : Type) : Type := World -> result A * World.

Definition ret {A} (a : A) : M A := fun w => (Ok a, w).

Definition throw {A} (e : Error) : M A := fun w => (Err e, w).

Definition bind {A B} (m : M A) (k : A -> M B) : M B :=
  fun w => match m w with
           | (Ok a, w') => k a w'
           | (Err e, w') => (Err e, w')
           end.

Notation "x <- m ;; k" := (bind m (fun x => k))
  (at level 100, m at next level, right associativity).
Notation "m ;;; k" := (bind m (fun _ => k))
  (at level 100, right associativity).

Definition get_settings : M Settings := fun w => (Ok (settings w), w).

Definition guard (b : bool) (e : Error) : M unit :=
  if b then ret tt else throw e.

Module Async.

(** [async.series(tasks, callback)]: the tasks run one after the other,
    each started from the callback of the one before; the first error ends
    the run and is handed to [callback] with the results gathered so far. *)
Fixpoint series {A} (tasks : list (M A)) (w : World) : (option Error * list A) * World :=
  match tasks with
  | [] => ((None, []), w)
  | t :: rest =>
      match t w with
      | (Err e, w') => ((Some e, []), w')
      | (Ok a, w') =>
          let '((err, results), w'') := series rest w' in
          ((err, a :: results), w'')
      end
  end.

End Async.

(** ** The module *)

(** The string made of one double-quote character. *)
Definition quote_char : ascii := ascii_of_nat 34.
Definition quote : string := String quote_char EmptyString.

(** The object literal [defaults] of the constructor. The default logger is
    the function [function () {}], which has no [log] property. *)
Definition defaults : Settings :=
  {| queryParams := [("maxResults", JNum 40); ("startIndex", JNum 0);
                     ("langRestrict", JStr "en"); ("printType", JStr "books")];
     cacheOptions := {| maxAge := 0; async := true; arity := 1; primitive := true |};
     setsToFetch := JNum 1;
     apiUrl := "https://www.googleapis.com/books/v1/volumes";
     logger := {| has_log := false |} |}.

(** [extend(true, defaults, options || {})]: the nested groups are merged
    field by field, the other fields are replaced when given. *)
Definition merge_settings (d : Settings) (o : UserOptions) : Settings :=
  {| queryParams := extend (queryParams d) (uo_queryParams o);
     cacheOptions := {| maxAge := default (maxAge (cacheOptions d)) (uo_maxAge o);
                        async := async (cacheOptions d);
                        arity := arity (cacheOptions d);
                        primitive := primitive (cacheOptions d) |};
     setsToFetch := match uo_setsToFetch o with
                    | JUndefined => setsToFetch d
                    | v => v
                    end;
     apiUrl := default (apiUrl d) (uo_apiUrl o);
     logger := default (logger d) (uo_logger o) |}.

(** [GoogleBooks(options)]: a fresh closure. *)
Definition GoogleBooks (options : UserOptions) : World :=
  {| settings := merge_settings defaults options;
     searchCache := None;
     now := 0;
     trace := [] |}.

Definition no_options : UserOptions :=
  {| uo_queryParams := []; uo_maxAge := None; uo_setsToFetch := JUndefined;
     uo_apiUrl := None; uo_logger := None |}.

(** The table [fields] of [searchBy]. *)
Definition fields : list (string * string) :=
  [("title", "intitle:"); ("author", "inauthor:"); ("publisher", "inpublisher:");
   ("subject", "subject:"); ("isbn", "isbn:"); ("lccn", "lccn:"); ("oclc", "oclc:");
   ("id", "id:")].

(** [fields] is an object literal, so [fields[k]] also finds what
    [Object.prototype] provides. *)
Definition object_prototype : list string :=
  ["constructor"; "toString"; "toLocaleString"; "valueOf"; "hasOwnProperty";
   "isPrototypeOf"; "propertyIsEnumerable"; "__defineGetter__"; "__defineSetter__";
   "__lookupGetter__"; "__lookupSetter__"; "__proto__"].

Inductive property : Type :=
  | Own (prefix : string)
  | Inherited (name : string)
  | Missing.

Fixpoint own_get (k : string) (t : list (string * string)) : option string :=
  match t with
  | [] => None
  | (k', v) :: t' => if String.eqb k k' then Some v else own_get k t'
  end.

(** [fields[k]] *)
Definition fields_get (k : string) : property :=
  match own_get k fields with
  | Some v => Own v
  | None => if existsb (String.eqb k) object_prototype then Inherited k else Missing
  end.

Definition property_truthy (p : property) : bool :=
  match p with
  | Own v => negb (String.eqb v "")
  | Inherited _ => true
  | Missing => false
  end.

(** [p + '...']: an inherited method prints as a native function,
    [constructor] being the function [Object] and [__proto__] an object. *)
Definition property_text (p : property) : string :=
  match p with
  | Own v => v
  | Inherited name =>
      if String.eqb name "__proto__" then "[object Object]"
      else if String.eqb name "constructor" then "function Object() { [native code] }"
      else "function " +:+ name +:+ "() { [native code] }"
  | Missing => "undefined"
  end.

(** [_.isNumber(v)]; it holds of [NaN]. *)
Definition isNumber (v : jsval) : bool :=
  match v with
  | JNum _ | JNaN => true
  | _ => false
  end.

(** [v < 0], for a number. *)
Definition negative (v : jsval) : bool :=
  match v with
  | JNum z => z <? 0
  | _ => false
  end.

Definition normalize_startIndex (v : jsval) : jsval :=
  if negb (isNumber v) || negative v then JNum 0 else v.

(** [query.replace('id:', '')] followed by [.replace(q, '')] where [q] is the
    one-character string [quote]. *)
Definition strip_id (q : string) : string :=
  replace_first quote (replace_first "id:" q).

(** [extend(settings.queryParams, {q: options.query, startIndex:
    options.startIndex})], after the start index has been normalized. *)
Definition merged_params (s : Settings) (options : Options) : jsobj :=
  extend (queryParams s)
    [("q", query options); ("startIndex", normalize_startIndex (startIndex options))].

(** [opts] of [createJob]: a copy of [options] with its own [startIndex]. *)
Definition job_options (start : Z) (options : Options) : Options :=
  {| query := query options; startIndex := JNum start;
     sets := sets options; field := field options |}.

Section Client.

(** [request.get]: the answer to the [n]-th request of the run. *)
Variable transport : nat -> RequestOptions -> result Body.

(** [settings.logger.log(...)] *)
Definition logger_log : M unit :=
  fun w => if has_log (logger (settings w)) then (Ok tt, w)
           else (Err (TypeError "settings.logger.log is not a function"), w).

(** The function given to [memoize]. *)
Definition request_get (uri : string) (requestOptions : RequestOptions) : M Body :=
  logger_log ;;;
  (fun w => (transport (List.length (gets_of (trace w))) requestOptions,
             log_event (EvGet requestOptions) w)).

(** [searchCache = searchCache || memoize(..., settings.cacheOptions)] *)
Definition init_searchCache : M unit :=
  fun w => match searchCache w with
           | Some _ => (Ok tt, w)
           | None => (Ok tt, set_searchCache (Some (memoize (cacheOptions (settings w)))) w)
           end.

(** [searchCache(fullUri, requestOptions, callback)] *)
Definition call_searchCache (fullUri : string) (requestOptions : RequestOptions) : M Body :=
  fun w =>
    match searchCache w with
    | None => (Err (TypeError "searchCache is not a function"), w)
    | Some c =>
        match cache_lookup c (now w) fullUri with
        | Some body => (Ok body, w)
        | None =>
            match request_get fullUri requestOptions w with
            | (Ok body, w') =>
                (Ok body, set_searchCache (Some (cache_store c (now w') fullUri body)) w')
            | (Err e, w') =>
                (Err e, set_searchCache (Some (cache_delete c fullUri)) w')
            end
        end
    end.

(** The [uri] of the request: the identifier resource when the query
    starts with [id:], the search endpoint otherwise. *)
Definition request_uri (s : Settings) (q : jsval) : M string :=
  match q with
  | JStr text =>
      if starts_with "id:" text then
        let id := strip_id text in
        guard (Validator.notNull (Validator.check (JStr id))
               && Validator.notEmpty (Validator.check (JStr id))) InvalidIdentifier ;;;
        logger_log ;;;
        ret (apiUrl s +:+ "/" +:+ id)
      else ret (apiUrl s)
  | _ => throw (TypeError "options.query.indexOf is not a function")
  end.

(** The body of the [try] block of [searchSingle]. [extend] writes [q] and
    [startIndex] on [settings.queryParams] itself, and [requestOptions.qs]
    is that same object. *)
Definition searchSingle_try (options : Options) : M Body :=
  guard (Validator.notNull (Validator.check (query options))
         && Validator.notEmpty (Validator.check (query options))) InvalidQuery ;;;
  logger_log ;;;
  s <- get_settings ;;
  let params := merged_params s options in
  (fun w => (Ok tt, set_settings (set_queryParams params s) w)) ;;;
  u <- request_uri s (query options) ;;
  let requestOptions := {| uri := u; qs := params; json := true |} in
  let fullUri := u +:+ "?" +:+ QueryString.stringify params in
  init_searchCache ;;;
  logger_log ;;;
  call_searchCache fullUri requestOptions.

(** [searchSingle(options, next)] *)
Definition searchSingle (options : Options) : M Body :=
  fun w =>
    let '(r, w') := searchSingle_try options
                      (log_event (EvFetchStart (query options) (startIndex options)) w) in
    (r, log_event (EvFetchDone r) w').

(** [createJob(startIndex, options)] *)
Definition createJob (start : Z) (options : Options) : M Body :=
  let opts := job_options start options in
  searchSingle opts.

(** The values taken by [i] in [for (i = 0; i < sets; i = i + 1)]. *)
Definition loop_indices (sets : option Z) : list Z :=
  match sets with
  | Some n => map Z.of_nat (seq 0 (Z.to_nat n))
  | None => []
  end.

(** [options.sets || settings.setsToFetch] *)
Definition requested_sets (s : Settings) (options : Options) : jsval :=
  js_or (sets options) (setsToFetch s).

(** [search(options, next)] *)
Definition search (options : Options) : M (list Body) :=
  fun w =>
    let sets := requested_sets (settings w) options in
    let increment := 40 in
    let sets := Validator.toInt (Validator.sanitize sets) in
    let jobs := map (fun i => createJob (increment * i) options) (loop_indices sets) in
    match Async.series jobs w with
    | ((Some err, _), w') => (Err err, w')
    | ((None, results), w') => (Ok results, w')
    end.

(** [searchBy(options, next)] *)
Definition searchBy (options : Options) : M (list Body) :=
  guard (Validator.notNull (Validator.check (query options))
         && Validator.notEmpty (Validator.check (query options))) InvalidQuery ;;;
  guard (Validator.notNull (Validator.check (field options))) MissingField ;;;
  let p := fields_get (to_string (field options)) in
  guard (property_truthy p) UnsupportedField ;;;
  logger_log ;;;
  search {| query := JStr (property_text p +:+ quote +:+ to_string (query options) +:+ quote);
            startIndex := JUndefined; sets := JUndefined; field := JUndefined |}.

End Client.

(** ** Vocabulary of the statements *)

(** The resource a query addresses. *)
Definition uri_of (s : Settings) (q : jsval) : string :=
  match q with
  | JStr text => if starts_with "id:" text then apiUrl s +:+ "/" +:+ strip_id text
                 else apiUrl s
  | _ => apiUrl s
  end.

(** [requestOptions] and [fullUri], the cache key, as [searchSingle] builds
    them from the settings at the time of the call. *)
Definition requestOptions_of (s : Settings) (o : Options) : RequestOptions :=
  {| uri := uri_of s (query o); qs := merged_params s o; json := true |}.

Definition fullUri_of (s : Settings) (o : Options) : string :=
  uri_of s (query o) +:+ "?" +:+ QueryString.stringify (merged_params s o).

(** The query passes [check(...).notNull().notEmpty()]. *)
Definition valid_text (v : jsval) : bool :=
  Validator.notNull (Validator.check v) && Validator.notEmpty (Validator.check v).

(** The cache holds an entry under [key] that is valid at time [t]. *)
Definition entry_valid_at (w : World) (key : string) (t : Z) : bool :=
  match searchCache w with
  | Some c =>
      match c_entries c !! key with
      | Some e => entry_valid (c_maxAge c) t e
      | None => false
      end
  | None => false
  end.

Definition with_sets (v : jsval) (o : Options) : Options :=
  {| query := query o; startIndex := startIndex o; sets := v; field := field o |}.

(** The events of one page fetch: entry, at most one request, exit. *)
Definition fetch_events (o : Options) (g : list RequestOptions) (r : result Body) : list Event :=
  EvFetchStart (query o) (startIndex o) :: map EvGet g ++ [EvFetchDone r].

(** Page fetches at the given start indices, one after the other, all of
    them successful; [None] as soon as one fails. *)
Fixpoint fetch_pages_ok (transport : nat -> RequestOptions -> result Body)
    (o : Options) (starts : list Z) (w : World) : option (list Body * World) :=
  match starts with
  | [] => Some ([], w)
  | i :: rest =>
      match searchSingle transport (job_options i o) w with
      | (Ok b, w') =>
          match fetch_pages_ok transport o rest w' with
          | Some (bs, w'') => Some (b :: bs, w'')
          | None => None
          end
      | (Err _, _) => None
      end
  end.

(** A transport that answers every request, and one that fails from the
    [n]-th request on; a client configured with a logger. *)
Definition echo_transport (n : nat) (r : RequestOptions) : result Body :=
  Ok ("page " +:+ pretty (Z.of_nat n) +:+ " of " +:+ uri r).

Definition failing_from (k : nat) (n : nat) (r : RequestOptions) : result Body :=
  if (n <? k)%nat then echo_transport n r else Err (TransportError "ECONNRESET").

Definition with_logger : UserOptions :=
  {| uo_queryParams := []; uo_maxAge := None; uo_setsToFetch := JUndefined;
     uo_apiUrl := None; uo_logger := Some {| has_log := true |} |}.

Definition plain_query (q : string) : Options :=
  {| query := JStr q; startIndex := JUndefined; sets := JUndefined; field := JUndefined |}.

(** [searchSingle] written out as one decision tree, for the proofs. *)

Definition finish (r : result Body) (w : World) : result Body * World :=
  (r, log_event (EvFetchDone r) w).

Definition mutated (o : Options) (w : World) : World :=
  set_settings (set_queryParams (merged_params (settings w) o) (settings w)) w.

Definition cache_of (w : World) : Cache :=
  default (memoize (cacheOptions (settings w))) (searchCache w).

Definition id_rejected (q : jsval) : bool :=
  match q with
  | JStr text => starts_with "id:" text && negb (valid_text (JStr (strip_id text)))
  | _ => false
  end.

Definition is_text (q : jsval) : bool :=
  match q with JStr _ => true | _ => false end.

(** The outcome of [searchSingle], case by case. *)
Definition searchSingle_flat (transport : nat -> RequestOptions -> result Body)
    (o : Options) (w : World) : result Body * World :=
  let w0 := log_event (EvFetchStart (query o) (startIndex o)) w in
  if negb (valid_text (query o)) then finish (Err InvalidQuery) w0
  else if negb (has_log (logger (settings w))) then
    finish (Err (TypeError "settings.logger.log is not a function")) w0
  else
    let w1 := mutated o w0 in
    if negb (is_text (query o)) then
      finish (Err (TypeError "options.query.indexOf is not a function")) w1
    else if id_rejected (query o) then finish (Err InvalidIdentifier) w1
    else
      let key := fullUri_of (settings w) o in
      let req := requestOptions_of (settings w) o in
      let c := cache_of w in
      match cache_lookup c (now w) key with
      | Some b => finish (Ok b) (set_searchCache (Some c) w1)
      | None =>
          let w2 := log_event (EvGet req) (set_searchCache (Some c) w1) in
          match transport (List.length (gets_of (trace w))) req with
          | Ok b => finish (Ok b) (set_searchCache (Some (cache_store c (now w) key b)) w2)
          | Err e => finish (Err e) (set_searchCache (Some (cache_delete c key)) w2)
          end
      end.


(** A client for the concrete runs, and a query. *)
Definition example_client : World := GoogleBooks with_logger.

Definition tolkien (start count : jsval) : Options :=
  {| query := JStr "Tolkien"; startIndex := start; sets := count; field := JUndefined |}.

(** ** Vocabulary of the further properties *)

(** Two settings that differ at most by the [q] and [startIndex] written on
    [queryParams]: the calls built from them are the same. *)
Definition same_base (s s' : Settings) : Prop :=
  apiUrl s' = apiUrl s
  /\ cacheOptions s' = cacheOptions s
  /\ setsToFetch s' = setsToFetch s
  /\ logger s' = logger s
  /\ (forall k, k <> "q" -> k <> "startIndex" ->
        obj_get k (queryParams s') = obj_get k (queryParams s))
  /\ (forall o, valid_text (query o) = true -> merged_params s' o = merged_params s o).

(** The text is empty or starts with something else than a digit. *)
Definition no_leading_digit (s : string) : bool :=
  match s with
  | String c _ => match digit_val c with Some _ => false | None => true end
  | EmptyString => true
  end.




(** A client built with options of its own. *)
Definition custom_options : UserOptions :=
  {| uo_queryParams := [("maxResults", JNum 10); ("country", JStr "US");
                        ("printType", JUndefined)];
     uo_maxAge := Some 1000; uo_setsToFetch := JUndefined;
     uo_apiUrl := None; uo_logger := Some {| has_log := true |} |}.

Definition custom_client : World := GoogleBooks custom_options.

(** * Properties *)

(** ** Events *)

Lemma gets_of_app (t1 t2 : list Event) : gets_of (t1 ++ t2) = gets_of t1 ++ gets_of t2.
Proof.
  induction t1 as [|e t1 IH]; [done|].
  destruct e; simpl; rewrite ?IH; done.
Qed.

Lemma fetches_of_app (t1 t2 : list Event) :
  fetches_of (t1 ++ t2) = fetches_of t1 ++ fetches_of t2.
Proof.
  induction t1 as [|e t1 IH]; [done|].
  destruct e; simpl; rewrite ?IH; done.
Qed.

Lemma gets_of_map_EvGet (g : list RequestOptions) : gets_of (map EvGet g) = g.
Proof. induction g; simpl; congruence. Qed.



Section ClientFacts.
Variable transport : nat -> RequestOptions -> result Body.

Lemma gets_of_snoc_other (t : list Event) (e : Event) :
  (forall r, e <> EvGet r) -> gets_of (t ++ [e]) = gets_of t.
Proof.
  intros H. rewrite gets_of_app. destruct e; simpl; try apply app_nil_r.
  by destruct (H r).
Qed.

Ltac step_m :=
  cbn [negb andb settings set_settings set_queryParams logger log_event searchCache now
       trace set_searchCache is_text Validator.check to_string apiUrl cacheOptions
       default from_option id fst snd].

Lemma call_searchCache_flat (key : string) (req : RequestOptions) (w : World) (c : Cache) :
  searchCache w = Some c ->
  has_log (logger (settings w)) = true ->
  call_searchCache transport key req w =
    match cache_lookup c (now w) key with
    | Some b => (Ok b, w)
    | None =>
        let w2 := log_event (EvGet req) w in
        match transport (List.length (gets_of (trace w))) req with
        | Ok b => (Ok b, set_searchCache (Some (cache_store c (now w) key b)) w2)
        | Err e => (Err e, set_searchCache (Some (cache_delete c key)) w2)
        end
    end.
Proof.
  intros Hc Hl. unfold call_searchCache, request_get, bind, logger_log.
  rewrite Hc, Hl. destruct (cache_lookup c (now w) key); [reflexivity|].
  destruct (transport _ _); reflexivity.
Qed.

Lemma searchSingle_unfold (o : Options) (w : World) :
  searchSingle transport o w = searchSingle_flat transport o w.
Proof.
  unfold searchSingle, searchSingle_flat, searchSingle_try, bind, guard, valid_text, ret,
    get_settings, init_searchCache, request_uri, logger_log, id_rejected, valid_text,
    mutated, cache_of, finish, fullUri_of, requestOptions_of, uri_of, bind, guard, ret.
  destruct (Validator.notNull _ && Validator.notEmpty _) eqn:Hq; [|reflexivity].
  step_m.
  destruct (has_log (logger (settings w))) eqn:Hl; [|reflexivity].
  step_m.
  destruct (query o) as [| |b|z| |text] eqn:Eq; try reflexivity.
  step_m.
  assert (Hgets : forall e, gets_of (trace w ++ [EvFetchStart (JStr text) e]) = gets_of (trace w))
    by (intros; apply gets_of_snoc_other; done).
  destruct (starts_with "id:" text) eqn:Hid; step_m.
  - destruct (Validator.notNull (strip_id text) && Validator.notEmpty (strip_id text)) eqn:Hv;
      [|reflexivity].
    step_m. rewrite ?Hl.
    destruct (searchCache w) as [c|] eqn:Hc; step_m; rewrite ?Hc; step_m; rewrite ?Hl.
    + erewrite call_searchCache_flat by (step_m; first [exact Hl | exact Hc | reflexivity]).
      step_m. rewrite Hgets.
      destruct (cache_lookup c (now w) _) eqn:Hlk;
        [unfold log_event, set_searchCache, set_settings; step_m; rewrite ?Hc; reflexivity|].
      destruct (transport _ _); reflexivity.
    + erewrite call_searchCache_flat by (step_m; first [exact Hl | exact Hc | reflexivity]).
      step_m. rewrite Hgets.
      destruct (cache_lookup _ (now w) _) eqn:Hlk; [reflexivity|].
      destruct (transport _ _); reflexivity.
  - destruct (searchCache w) as [c|] eqn:Hc; step_m; rewrite ?Hc; step_m; rewrite ?Hl.
    + erewrite call_searchCache_flat by (step_m; first [exact Hl | exact Hc | reflexivity]).
      step_m. rewrite Hgets.
      destruct (cache_lookup c (now w) _) eqn:Hlk;
        [unfold log_event, set_searchCache, set_settings; step_m; rewrite ?Hc; reflexivity|].
      destruct (transport _ _); reflexivity.
    + erewrite call_searchCache_flat by (step_m; first [exact Hl | exact Hc | reflexivity]).
      step_m. rewrite Hgets.
      destruct (cache_lookup _ (now w) _) eqn:Hlk; [reflexivity|].
      destruct (transport _ _); reflexivity.
Qed.
End ClientFacts.

(** ** Objects *)

Lemma obj_set_overwrite (k : string) (v v0 : jsval) (o : jsobj) :
  obj_set k v (obj_set k v0 o) = obj_set k v o.
Proof.
  induction o as [|[k0 x] o IH]; simpl.
  - by rewrite String.eqb_refl.
  - destruct (String.eqb k k0) eqn:E; simpl; rewrite E; [done | by rewrite IH].
Qed.

Lemma obj_set_absorb (k k' : string) (v v0 v' : jsval) (o : jsobj) :
  k <> k' ->
  obj_set k v (obj_set k' v' (obj_set k v0 o)) = obj_set k' v' (obj_set k v o).
Proof.
  intros Hne.
  assert (Hkk' : String.eqb k' k = false) by (apply String.eqb_neq; congruence).
  induction o as [|[k0 x] o IH]; simpl.
  - rewrite Hkk'. simpl. by rewrite String.eqb_refl.
  - destruct (String.eqb k k0) eqn:E; simpl.
    + apply String.eqb_eq in E as <-. rewrite Hkk'. simpl. by rewrite String.eqb_refl.
    + destruct (String.eqb k' k0) eqn:E'; simpl; rewrite E.
      * by rewrite obj_set_overwrite.
      * by rewrite IH.
Qed.

Lemma normalize_startIndex_defined (v : jsval) : normalize_startIndex v <> JUndefined.
Proof. unfold normalize_startIndex. by destruct v; simpl; try case_match. Qed.

Lemma merged_params_set (s : Settings) (o : Options) :
  query o <> JUndefined ->
  merged_params s o =
    obj_set "startIndex" (normalize_startIndex (startIndex o))
      (obj_set "q" (query o) (queryParams s)).
Proof.
  intros Hq. unfold merged_params, extend. simpl.
  pose proof (normalize_startIndex_defined (startIndex o)) as Hs.
  destruct (query o); try done; destruct (normalize_startIndex _); done.
Qed.

(** The parameters merged for a call do not depend on the calls made
    before: whatever an earlier call wrote on [settings.queryParams] is
    written again. *)
Lemma merged_params_stable (s : Settings) (o o' : Options) :
  query o <> JUndefined -> query o' <> JUndefined ->
  merged_params (set_queryParams (merged_params s o') s) o = merged_params s o.
Proof.
  intros Hq Hq'. rewrite (merged_params_set _ o) by done. simpl.
  rewrite (merged_params_set s o') by done.
  rewrite (obj_set_absorb "q" "startIndex") by done. rewrite obj_set_overwrite.
  by rewrite merged_params_set.
Qed.

Lemma valid_text_defined (v : jsval) : valid_text v = true -> v <> JUndefined.
Proof. by destruct v. Qed.

Section FetchFacts.
Variable transport : nat -> RequestOptions -> result Body.

Lemma gets_of_fetch_events (o : Options) (g : list RequestOptions) (r : result Body) :
  gets_of (fetch_events o g r) = g.
Proof.
  unfold fetch_events. simpl. rewrite gets_of_app, gets_of_map_EvGet. simpl.
  apply app_nil_r.
Qed.




Lemma lookup_entry (c : Cache) (t : Z) (key : string) (b : Body) :
  cache_lookup c t key = Some b ->
  exists e, c_entries c !! key = Some e /\ ce_body e = b
            /\ entry_valid (c_maxAge c) t e = true.
Proof.
  unfold cache_lookup. destruct (c_entries c !! key) as [e|]; [|done].
  destruct (entry_valid _ _ _) eqn:Hv; [|done]. intros [= <-]. by exists e.
Qed.

(** What a successful page fetch went through, and what it leaves. *)
Lemma searchSingle_ok_inv (o : Options) (w w1 : World) (body : Body) :
  searchSingle transport o w = (Ok body, w1) ->
  let key := fullUri_of (settings w) o in
  valid_text (query o) = true
  /\ has_log (logger (settings w)) = true
  /\ is_text (query o) = true
  /\ id_rejected (query o) = false
  /\ settings w1 = set_queryParams (merged_params (settings w) o) (settings w)
  /\ now w1 = now w
  /\ (exists c1 e, searchCache w1 = Some c1 /\ c_entries c1 !! key = Some e
                   /\ ce_body e = body)
  /\ ((cache_lookup (cache_of w) (now w) key = Some body
       /\ gets_of (trace w1) = gets_of (trace w))
      \/ (cache_lookup (cache_of w) (now w) key = None
          /\ gets_of (trace w1) = gets_of (trace w) ++ [requestOptions_of (settings w) o])).
Proof.
  rewrite searchSingle_unfold. unfold searchSingle_flat, finish.
  destruct (valid_text (query o)); [|done]. simpl.
  destruct (has_log (logger (settings w))); [|done]. simpl.
  destruct (is_text (query o)); [|done]. simpl.
  destruct (id_rejected (query o)); [done|].
  destruct (cache_lookup _ _ _) as [b|] eqn:Hlk.
  - intros [= -> <-]. repeat split; try done.
    + apply lookup_entry in Hlk as (e & He & Hb & _). by exists (cache_of w), e.
    + left. split; [done|]. simpl. rewrite !gets_of_app. simpl. by rewrite !app_nil_r.
  - destruct (transport _ _) as [b|e] eqn:Ht; [|done].
    intros [= -> <-]. repeat split; try done.
    + eexists _, _. split; [reflexivity|]. unfold cache_store.
      cbn [c_entries]. by rewrite lookup_insert_eq.
    + right. split; [done|]. simpl. rewrite !gets_of_app. simpl. by rewrite !app_nil_r.
Qed.

(** A page fetch whose key has a valid entry is answered from the cache. *)
Lemma searchSingle_hit (o : Options) (w : World) (body : Body) :
  valid_text (query o) = true ->
  has_log (logger (settings w)) = true ->
  is_text (query o) = true ->
  id_rejected (query o) = false ->
  cache_lookup (cache_of w) (now w) (fullUri_of (settings w) o) = Some body ->
  exists w', searchSingle transport o w = (Ok body, w')
             /\ gets_of (trace w') = gets_of (trace w).
Proof.
  intros Hv Hl Ht Hi Hlk. rewrite searchSingle_unfold. unfold searchSingle_flat.
  rewrite Hv, Hl, Ht, Hi, Hlk. simpl. eexists. split; [done|].
  simpl. rewrite !gets_of_app. simpl. by rewrite !app_nil_r.
Qed.

End FetchFacts.

Section CacheClaim.
Variable transport : nat -> RequestOptions -> result Body.


End CacheClaim.

Section Pagination.
Variable transport : nat -> RequestOptions -> result Body.


Lemma series_first_error (o : Options) (pre post : list Z) (k : Z) (w w1 w2 : World)
    (bs : list Body) (e : Error) :
  fetch_pages_ok transport o pre w = Some (bs, w1) ->
  searchSingle transport (job_options k o) w1 = (Err e, w2) ->
  Async.series (map (fun i => createJob transport i o) (pre ++ k :: post)) w
  = ((Some e, bs), w2).
Proof.
  revert w bs. induction pre as [|i pre IH]; intros w bs; simpl.
  - intros [= <- <-] Hk. unfold createJob at 1. cbv zeta. by rewrite Hk.
  - unfold createJob at 1. cbv zeta.
    destruct (searchSingle transport (job_options i o) w) as [[b|e0] w0]; [|done].
    destruct (fetch_pages_ok transport o pre w0) as [[bs0 w'']|] eqn:E; [|done].
    intros [= <- <-] Hk. by rewrite (IH _ _ E Hk).
Qed.


Lemma search_unfold (o : Options) (w : World) :
  search transport o w =
    match Async.series
            (map (fun i => createJob transport i o)
               (map (Z.mul 40)
                  (loop_indices
                     (Validator.toInt (Validator.sanitize (requested_sets (settings w) o))))))
            w with
    | ((Some err, _), w') => (Err err, w')
    | ((None, results), w') => (Ok results, w')
    end.
Proof. unfold search. by rewrite map_map. Qed.



End Pagination.

(** ** Strings *)

Lemma prefix_id (x : string) : starts_with "id:" ("id:" +:+ x) = true.
Proof. by destruct x. Qed.

Lemma replace_first_id (x : string) : replace_first "id:" ("id:" +:+ x) = x.
Proof.
  change ("id:" +:+ x) with (String "i" (String "d" (String ":" x))).
  unfold replace_first.
  change (String.prefix "id:" (String "i" (String "d" (String ":" x))))
    with (starts_with "id:" ("id:" +:+ x)).
  by rewrite prefix_id.
Qed.

Lemma prefix_single (c d : ascii) (s : string) :
  String.prefix (String c EmptyString) (String d s) = Ascii.eqb c d.
Proof.
  simpl. destruct (ascii_dec c d) as [->|Hne].
  - rewrite Ascii.eqb_refl. by destruct s.
  - symmetry. by apply Ascii.eqb_neq.
Qed.

Lemma replace_first_cons (c d : ascii) (s : string) :
  replace_first (String c EmptyString) (String d s) =
    if Ascii.eqb c d then s else String d (replace_first (String c EmptyString) s).
Proof.
  change (replace_first (String c EmptyString) (String d s))
    with (if String.prefix (String c EmptyString) (String d s) then s
          else String d (replace_first (String c EmptyString) s)).
  by rewrite prefix_single.
Qed.


Lemma replace_first_here (c : ascii) (s : string) :
  replace_first (String c EmptyString) (String c s) = s.
Proof. by rewrite replace_first_cons, Ascii.eqb_refl. Qed.


(** Of a quoted identifier only the opening quote is removed. *)
Lemma strip_id_quoted (x : string) :
  strip_id ("id:" +:+ quote +:+ x +:+ quote) = x +:+ quote.
Proof.
  unfold strip_id. rewrite replace_first_id. apply replace_first_here.
Qed.

Lemma remove_all_absent_snoc (c : ascii) (x : string) :
  contains_char c x = false -> remove_all c (x +:+ String c EmptyString) = x.
Proof.
  induction x as [|d x IH]; simpl.
  - by rewrite Ascii.eqb_refl.
  - destruct (Ascii.eqb c d); [done|]. simpl. intros H. by rewrite IH.
Qed.

(** Removing every quote character from a quoted identifier gives the
    identifier. *)
Lemma remove_all_quoted (x : string) :
  contains_char quote_char x = false ->
  remove_all quote_char (quote +:+ x +:+ quote) = x.
Proof.
  intros H. change (quote +:+ x +:+ quote) with (String quote_char (x +:+ quote)).
  cbn [remove_all]. rewrite Ascii.eqb_refl. by apply remove_all_absent_snoc.
Qed.

Lemma split_sign_cases (c : ascii) (r : string) :
  split_sign (String c r) = (true, r) \/ split_sign (String c r) = (false, r)
  \/ split_sign (String c r) = (false, String c r).
Proof. destruct c as [[] [] [] [] [] [] [] []]; auto. Qed.

Lemma has_digit_skip_space (s : string) :
  has_digit s = false -> has_digit (skip_space s) = false.
Proof.
  induction s as [|c s IH]; [done|]. simpl.
  destruct (digit_val c) eqn:E; [done|]. intros H.
  destruct (is_space c); [by apply IH|]. simpl. by rewrite E.
Qed.

(** A string without a digit does not parse as an integer. *)
Lemma parseInt_no_digit (s : string) : has_digit s = false -> parseInt s = None.
Proof.
  intros H%has_digit_skip_space. unfold parseInt.
  destruct (skip_space s) as [|c r]; [done|].
  assert (Hr : has_digit r = false) by (simpl in H; by destruct (digit_val c)).
  destruct (split_sign_cases c r) as [-> | [-> | ->]].
  - destruct r as [|c' r']; [done|]. simpl in Hr. by destruct (digit_val c').
  - destruct r as [|c' r']; [done|]. simpl in Hr. by destruct (digit_val c').
  - simpl in H. by destruct (digit_val c).
Qed.

Lemma obj_get_set_eq (k : string) (v : jsval) (o : jsobj) : obj_get k (obj_set k v o) = v.
Proof.
  induction o as [|[k0 x] o IH]; simpl.
  - by rewrite String.eqb_refl.
  - destruct (String.eqb k k0) eqn:E; simpl; by rewrite E.
Qed.

Lemma obj_get_set_ne (k k' : string) (v : jsval) (o : jsobj) :
  k <> k' -> obj_get k (obj_set k' v o) = obj_get k o.
Proof.
  intros Hne. apply String.eqb_neq in Hne.
  induction o as [|[k0 x] o IH]; simpl.
  - by rewrite Hne.
  - destruct (String.eqb k' k0) eqn:E; simpl.
    + apply String.eqb_eq in E as <-. by rewrite Hne.
    + by rewrite IH.
Qed.

(** The merged parameters: [q] and [startIndex] of the call, every other
    parameter as the settings have it. *)
Lemma merged_params_get (s : Settings) (o : Options) (k : string) :
  query o <> JUndefined ->
  obj_get k (merged_params s o) =
    if String.eqb k "startIndex" then normalize_startIndex (startIndex o)
    else if String.eqb k "q" then query o
    else obj_get k (queryParams s).
Proof.
  intros Hq. rewrite merged_params_set by done.
  destruct (String.eqb k "startIndex") eqn:E1.
  - apply String.eqb_eq in E1 as ->. apply obj_get_set_eq.
  - apply String.eqb_neq in E1. rewrite obj_get_set_ne by done.
    destruct (String.eqb k "q") eqn:E2.
    + apply String.eqb_eq in E2 as ->. apply obj_get_set_eq.
    + apply String.eqb_neq in E2. by rewrite obj_get_set_ne.
Qed.

Section Claims.
Variable transport : nat -> RequestOptions -> result Body.

(** [searchSingle] reads [query] and [startIndex] only. *)
Lemma searchSingle_ext (o1 o2 : Options) :
  query o1 = query o2 -> startIndex o1 = startIndex o2 ->
  searchSingle transport o1 = searchSingle transport o2.
Proof.
  intros Hq Hs. unfold searchSingle, searchSingle_try, merged_params.
  by rewrite Hq, Hs.
Qed.


(** The settings after a page fetch are those before it, or those with the
    parameters of the call merged in. *)
Lemma searchSingle_settings_cases (o : Options) (w w' : World) (r : result Body) :
  searchSingle transport o w = (r, w') ->
  settings w' = settings w
  \/ (valid_text (query o) = true
      /\ settings w' = set_queryParams (merged_params (settings w) o) (settings w)).
Proof.
  rewrite searchSingle_unfold. unfold searchSingle_flat, finish.
  destruct (valid_text (query o)) eqn:Hv; simpl; [|intros [= <- <-]; by left].
  repeat case_match; intros [= <- <-]; (by left) || (by right).
Qed.

(** The cache key of a call does not depend on the calls made before it on
    the same client. *)
Lemma fullUri_stable (o o' : Options) (w w' : World) (r : result Body) :
  searchSingle transport o' w = (r, w') ->
  valid_text (query o) = true ->
  fullUri_of (settings w') o = fullUri_of (settings w) o.
Proof.
  intros [-> | [Hv' ->]]%searchSingle_settings_cases Hv; [done|].
  unfold fullUri_of. rewrite merged_params_stable by by apply valid_text_defined.
  done.
Qed.



(** A page-set count given as a non-empty string without a digit is
    non-numeric. *)
Lemma requested_sets_text (s : Settings) (o : Options) (text : string) :
  sets o = JStr text -> text <> "" -> has_digit text = false ->
  Validator.toInt (Validator.sanitize (requested_sets s o)) = None.
Proof.
  intros Hs Hne Hd. unfold requested_sets, js_or. rewrite Hs. simpl.
  destruct (String.eqb text "") eqn:E; [by apply String.eqb_eq in E|].
  simpl. by apply parseInt_no_digit.
Qed.

(** C10. A falsy [sets] (0, null, undefined, ...) is replaced by
    [settings.setsToFetch]: the search is the one made when [sets] is
    absent. *)
Theorem search_falsy_sets (o : Options) (w : World) (v : jsval) :
  truthy v = false ->
  requested_sets (settings w) (with_sets v o) = setsToFetch (settings w)
  /\ search transport (with_sets v o) w = search transport (with_sets JUndefined o) w.
Proof.
  intros Hv. split.
  - unfold requested_sets, js_or, with_sets. simpl. by rewrite Hv.
  - unfold search, requested_sets, js_or. cbn [with_sets sets]. rewrite Hv. cbn [truthy].
    set (idx := loop_indices _).
    replace (map (fun i => createJob transport (40 * i) (with_sets v o)) idx)
      with (map (fun i => createJob transport (40 * i) (with_sets JUndefined o)) idx); [done|].
    apply map_ext. intros i. unfold createJob. by apply searchSingle_ext.
Qed.

Lemma own_get_fields (f p : string) :
  own_get f fields = Some p -> f <> "" /\ p <> "" /\ fields_get f = Own p.
Proof.
  intros H. split; [by intros ->|]. split.
  - unfold fields in H. simpl in H.
    repeat (destruct (String.eqb f _); [by injection H as <-|]). done.
  - unfold fields_get. by rewrite H.
Qed.

Lemma notEmpty_notNull (s : string) : Validator.notEmpty s = true -> Validator.notNull s = true.
Proof. by destruct s. Qed.

End Claims.

Section Validation.
Variable transport : nat -> RequestOptions -> result Body.




(** With the logger of [defaults], every page fetch with a valid query ends
    in a [TypeError] before anything else is done. *)
Lemma searchSingle_default_logger (o : Options) (w : World) :
  valid_text (query o) = true -> has_log (logger (settings w)) = false ->
  fst (searchSingle transport o w) = Err (TypeError "settings.logger.log is not a function")
  /\ gets_of (trace (snd (searchSingle transport o w))) = gets_of (trace w)
  /\ settings (snd (searchSingle transport o w)) = settings w.
Proof.
  intros Hv Hl. rewrite searchSingle_unfold. unfold searchSingle_flat.
  rewrite Hv, Hl. simpl. split; [done|]. split; [|done].
  rewrite !gets_of_app. simpl. by rewrite !app_nil_r.
Qed.


End Validation.

(** ** Concrete runs *)


(** C1. A search of two pages on a fresh client leaves [q] and the start
    index of the last page written on [settings.queryParams]: the settings
    are not what they were after construction. *)
Theorem search_writes_queryParams :
  let w' := snd (search echo_transport (tolkien JUndefined (JNum 2)) example_client) in
  queryParams (settings example_client)
  = [("maxResults", JNum 40); ("startIndex", JNum 0);
     ("langRestrict", JStr "en"); ("printType", JStr "books")]
  /\ queryParams (settings w')
     = [("maxResults", JNum 40); ("startIndex", JNum 40);
        ("langRestrict", JStr "en"); ("printType", JStr "books"); ("q", JStr "Tolkien")]
  /\ settings w' <> settings example_client.
Proof.
  split; [reflexivity|]. split; [vm_compute; reflexivity|].
  intros H. apply (f_equal queryParams) in H. vm_compute in H. discriminate H.
Qed.

(** C2. For the query made of [id:] and [abc] between quote characters, the
    request goes to [apiUrl/abc] followed by a quote character, where
    removing every quote would give [abc]; and for [id:] followed by two
    quote characters the fetch goes on although nothing is left of the
    identifier once every quote is removed. *)
Theorem quoted_id_keeps_closing_quote :
  let q := "id:" +:+ quote +:+ "abc" +:+ quote in
  map uri (gets_of (trace (snd (searchSingle echo_transport (plain_query q) example_client))))
  = ["https://www.googleapis.com/books/v1/volumes/abc" +:+ quote]
  /\ remove_all quote_char (replace_first "id:" q) = "abc"
  /\ remove_all quote_char (replace_first "id:" ("id:" +:+ quote +:+ quote)) = ""
  /\ is_ok (fst (searchSingle echo_transport (plain_query ("id:" +:+ quote +:+ quote))
                   example_client)) = true.
Proof. repeat split; vm_compute; reflexivity. Qed.

(** C8. On a client built with the default options, [searchBy] for the
    value Tolkien and the field author ends in the [TypeError] of
    [settings.logger.log] and leaves the client untouched: the query text is
    not built and [search] is not called. With a logger that has [log] the
    same call is the search for [inauthor:] followed by Tolkien between
    quote characters. *)
Theorem searchBy_default_client_fails :
  let o := {| query := JStr "Tolkien"; startIndex := JUndefined; sets := JUndefined;
              field := JStr "author" |} in
  has_log (logger (settings (GoogleBooks no_options))) = false
  /\ searchBy echo_transport o (GoogleBooks no_options)
     = (Err (TypeError "settings.logger.log is not a function"), GoogleBooks no_options)
  /\ searchBy echo_transport o example_client
     = search echo_transport (plain_query ("inauthor:" +:+ quote +:+ "Tolkien" +:+ quote))
         example_client
  /\ fst (searchBy echo_transport o example_client)
     = Ok ["page 0 of https://www.googleapis.com/books/v1/volumes"].
Proof. repeat split; vm_compute; reflexivity. Qed.



(** ** Instances *)






Lemma search_falsy_sets_witness :
  truthy (JNum 0) = false
  /\ search echo_transport (with_sets (JNum 0) (tolkien JUndefined JUndefined)) example_client
     = search echo_transport (with_sets JUndefined (tolkien JUndefined JUndefined)) example_client
  /\ fetches_of (trace (snd (search echo_transport
                               (with_sets (JNum 0) (tolkien JUndefined JUndefined))
                               example_client))) = [JNum 0].
Proof.
  split; [reflexivity|].
  destruct (search_falsy_sets echo_transport (tolkien JUndefined JUndefined) example_client
              (JNum 0)) as (_ & Hs); [reflexivity|].
  split; [exact Hs|]. vm_compute. reflexivity.
Defined.



Section Liveness.
Variable transport : nat -> RequestOptions -> result Body.

End Liveness.

(** ** More on pagination *)

Section MorePagination.
Variable transport : nat -> RequestOptions -> result Body.



(** When the first page fails, [search] ends with its error. *)
Lemma search_first_page_error (o : Options) (w w' : World) (n : Z) (e : Error) :
  Validator.toInt (Validator.sanitize (requested_sets (settings w) o)) = Some n ->
  0 < n ->
  searchSingle transport (job_options 0 o) w = (Err e, w') ->
  search transport o w = (Err e, w').
Proof.
  intros Hn Hpos Hfail. rewrite search_unfold, Hn. unfold loop_indices.
  destruct (Z.to_nat n) as [|m] eqn:Em; [lia|].
  change (map (Z.mul 40) (map Z.of_nat (seq 0 (S m))))
    with ([] ++ 0 :: map (Z.mul 40) (map Z.of_nat (seq 1 m))).
  by rewrite (series_first_error transport o [] _ 0 w w w' [] e eq_refl Hfail).
Qed.


(** X2. A count that reads as zero or as a negative integer (the text 0, the
    number -2) fetches nothing: [search] succeeds with the empty list and
    leaves the client as it was, whatever the query. *)
Theorem search_nonpositive_count (o : Options) (w : World) (n : Z) :
  Validator.toInt (Validator.sanitize (requested_sets (settings w) o)) = Some n ->
  n <= 0 ->
  search transport o w = (Ok [], w).
Proof.
  intros Hn Hle. unfold search. rewrite Hn. unfold loop_indices.
  by replace (Z.to_nat n) with 0%nat by lia.
Qed.

End MorePagination.

(** ** Failures before the transport *)

Section EarlyFailures.
Variable transport : nat -> RequestOptions -> result Body.

Lemma gets_of_two (t : list Event) (e1 e2 : Event) :
  (forall r, e1 <> EvGet r) -> (forall r, e2 <> EvGet r) ->
  gets_of ((t ++ [e1]) ++ [e2]) = gets_of t.
Proof. intros H1 H2. by rewrite !gets_of_snoc_other. Qed.

(** X3. A search of at least one page whose query is null, undefined, NaN
    or blank ends with [InvalidQuery] at its first page: no request is
    issued, the settings and the cache are untouched. *)
Theorem search_invalid_query (o : Options) (w : World) (n : Z) :
  valid_text (query o) = false ->
  Validator.toInt (Validator.sanitize (requested_sets (settings w) o)) = Some n ->
  0 < n ->
  exists w', search transport o w = (Err InvalidQuery, w')
             /\ settings w' = settings w
             /\ searchCache w' = searchCache w
             /\ gets_of (trace w') = gets_of (trace w)
             /\ fetches_of (trace w') = fetches_of (trace w) ++ [JNum 0].
Proof.
  intros Hv Hn Hpos. eexists. split.
  - eapply search_first_page_error; [done..|].
    rewrite searchSingle_unfold. unfold searchSingle_flat, finish.
    cbn [job_options query]. rewrite Hv. reflexivity.
  - cbn [settings searchCache trace log_event]. repeat split.
    + by apply gets_of_two.
    + rewrite !fetches_of_app. simpl. by rewrite app_nil_r.
Qed.



(** X6. A query [id:x] where [x], once its first quote character is
    removed, is empty or blank makes a search of at least one page end with
    [InvalidIdentifier]; no request is issued. *)
Theorem search_empty_identifier (o : Options) (w : World) (x : string) (n : Z) :
  has_log (logger (settings w)) = true ->
  query o = JStr ("id:" +:+ x) ->
  all_space (replace_first quote x) = true ->
  Validator.toInt (Validator.sanitize (requested_sets (settings w) o)) = Some n ->
  0 < n ->
  exists w', search transport o w = (Err InvalidIdentifier, w')
             /\ searchCache w' = searchCache w
             /\ gets_of (trace w') = gets_of (trace w).
Proof.
  intros Hl Hq Hx Hn Hpos.
  assert (Hv : valid_text (query o) = true).
  { rewrite Hq. unfold valid_text. cbn [Validator.check to_string].
    change ("id:" +:+ x) with (String "i" (String "d" (String ":" x))). done. }
  assert (Hi : id_rejected (query o) = true).
  { rewrite Hq. unfold id_rejected, strip_id. rewrite prefix_id, replace_first_id.
    unfold valid_text, Validator.notEmpty. cbn [Validator.check to_string].
    rewrite Hx. by rewrite andb_false_r. }
  eexists. split.
  - eapply search_first_page_error; [done..|].
    rewrite searchSingle_unfold. unfold searchSingle_flat, finish.
    cbn [job_options query]. rewrite Hv, Hl, Hi, Hq. reflexivity.
  - cbn [settings searchCache trace log_event mutated set_settings]. repeat split.
    by apply gets_of_two.
Qed.

End EarlyFailures.

(** ** What the calls leave of the settings *)

Lemma same_base_refl (s : Settings) : same_base s s.
Proof. by repeat split. Qed.

Lemma same_base_trans (s1 s2 s3 : Settings) :
  same_base s1 s2 -> same_base s2 s3 -> same_base s1 s3.
Proof.
  intros (A1 & A2 & A3 & A4 & A5 & A6) (B1 & B2 & B3 & B4 & B5 & B6).
  repeat split; try congruence.
  - intros k H1 H2. by rewrite B5, A5.
  - intros o Hv. by rewrite B6, A6.
Qed.

Lemma same_base_merged (s : Settings) (o : Options) :
  valid_text (query o) = true ->
  same_base s (set_queryParams (merged_params s o) s).
Proof.
  intros Hv. repeat split.
  - intros k H1 H2. cbn [queryParams set_queryParams].
    rewrite merged_params_get by by apply valid_text_defined.
    apply String.eqb_neq in H1, H2. by rewrite H1, H2.
  - intros o' Hv'. by apply merged_params_stable; apply valid_text_defined.
Qed.

Lemma same_base_request (s s' : Settings) (o : Options) :
  same_base s s' -> valid_text (query o) = true ->
  requestOptions_of s' o = requestOptions_of s o /\ fullUri_of s' o = fullUri_of s o.
Proof.
  intros (A1 & _ & _ & _ & _ & A6) Hv.
  unfold requestOptions_of, fullUri_of, uri_of. by rewrite A1, A6.
Qed.

Section Settings.
Variable transport : nat -> RequestOptions -> result Body.

Lemma searchSingle_same_base (o : Options) (w w' : World) (r : result Body) :
  searchSingle transport o w = (r, w') -> same_base (settings w) (settings w').
Proof.
  intros [-> | [Hv ->]]%searchSingle_settings_cases.
  - apply same_base_refl.
  - by apply same_base_merged.
Qed.

Lemma series_same_base (o : Options) (starts : list Z) (w w' : World)
    (res : option Error * list Body) :
  Async.series (map (fun i => createJob transport i o) starts) w = (res, w') ->
  same_base (settings w) (settings w').
Proof.
  revert w res. induction starts as [|i starts IH]; intros w res; simpl.
  - intros [= _ <-]. apply same_base_refl.
  - unfold createJob at 1. cbv zeta.
    destruct (searchSingle transport (job_options i o) w) as [[b|e] w0] eqn:E0.
    + destruct (Async.series _ w0) as [[err rs] w''] eqn:E.
      intros [= _ <-]. eapply same_base_trans; [by eapply searchSingle_same_base|].
      by eapply IH.
    + intros [= _ <-]. by eapply searchSingle_same_base.
Qed.

Lemma search_same_base (o : Options) (w w' : World) (r : result (list Body)) :
  search transport o w = (r, w') -> same_base (settings w) (settings w').
Proof.
  rewrite search_unfold.
  destruct (Async.series _ w) as [[err rs] w0] eqn:E.
  apply series_same_base in E. by destruct err; intros [= _ <-].
Qed.

Lemma searchBy_same_base (o : Options) (w w' : World) (r : result (list Body)) :
  searchBy transport o w = (r, w') -> same_base (settings w) (settings w').
Proof.
  unfold searchBy, bind, guard, logger_log, ret.
  destruct (_ && _); [|intros [= _ <-]; apply same_base_refl].
  destruct (Validator.notNull _); [|intros [= _ <-]; apply same_base_refl].
  destruct (property_truthy _); [|intros [= _ <-]; apply same_base_refl].
  destruct (has_log _); [|intros [= _ <-]; apply same_base_refl].
  apply search_same_base.
Qed.

(** X7. Whatever [search] and [searchBy] do, they leave the base URL, the
    cache options, the default page-set count and the logger as they were,
    and every query parameter other than [q] and [startIndex]. *)
Theorem public_calls_keep_settings (o : Options) (w : World) :
  let after_search := settings (snd (search transport o w)) in
  let after_searchBy := settings (snd (searchBy transport o w)) in
  (apiUrl after_search = apiUrl (settings w)
   /\ cacheOptions after_search = cacheOptions (settings w)
   /\ setsToFetch after_search = setsToFetch (settings w)
   /\ logger after_search = logger (settings w)
   /\ forall k, k <> "q" -> k <> "startIndex" ->
        obj_get k (queryParams after_search) = obj_get k (queryParams (settings w)))
  /\ (apiUrl after_searchBy = apiUrl (settings w)
      /\ cacheOptions after_searchBy = cacheOptions (settings w)
      /\ setsToFetch after_searchBy = setsToFetch (settings w)
      /\ logger after_searchBy = logger (settings w)
      /\ forall k, k <> "q" -> k <> "startIndex" ->
           obj_get k (queryParams after_searchBy) = obj_get k (queryParams (settings w))).
Proof.
  intros s1 s2. split.
  - destruct (search transport o w) as [r w'] eqn:E.
    apply search_same_base in E as (? & ? & ? & ? & ? & _). by repeat split.
  - destruct (searchBy transport o w) as [r w'] eqn:E.
    apply searchBy_same_base in E as (? & ? & ? & ? & ? & _). by repeat split.
Qed.

(** X8. The request and the cache key of a call do not depend on the
    searches made before it on the same client: what those wrote on
    [settings.queryParams] is written again. *)
Theorem request_independent_of_history (o o' : Options) (w : World) :
  valid_text (query o) = true ->
  let w' := snd (search transport o' w) in
  requestOptions_of (settings w') o = requestOptions_of (settings w) o
  /\ fullUri_of (settings w') o = fullUri_of (settings w) o.
Proof.
  intros Hv w'. apply same_base_request; [|done].
  subst w'. destruct (search transport o' w) as [r w1] eqn:E.
  by apply search_same_base in E.
Qed.
End Settings.

(** ** Requests *)

Section Requests.
Variable transport : nat -> RequestOptions -> result Body.

(** A page fetch either issues no request, or misses the cache and issues
    the request of its options, whose answer is the result. *)
Lemma searchSingle_request_cases (o : Options) (w w' : World) (r : result Body) :
  searchSingle transport o w = (r, w') ->
  gets_of (trace w') = gets_of (trace w)
  \/ (valid_text (query o) = true
      /\ has_log (logger (settings w)) = true
      /\ is_text (query o) = true
      /\ id_rejected (query o) = false
      /\ cache_lookup (cache_of w) (now w) (fullUri_of (settings w) o) = None
      /\ r = transport (List.length (gets_of (trace w))) (requestOptions_of (settings w) o)
      /\ gets_of (trace w') = gets_of (trace w) ++ [requestOptions_of (settings w) o]
      /\ now w' = now w
      /\ searchCache w'
         = Some (match r with
                 | Ok b => cache_store (cache_of w) (now w) (fullUri_of (settings w) o) b
                 | Err _ => cache_delete (cache_of w) (fullUri_of (settings w) o)
                 end)).
Proof.
  rewrite searchSingle_unfold. unfold searchSingle_flat, finish.
  destruct (valid_text (query o)); cbn [negb];
    [|intros [= <- <-]; left; by apply gets_of_two].
  destruct (has_log (logger (settings w))); cbn [negb];
    [|intros [= <- <-]; left; by apply gets_of_two].
  destruct (is_text (query o)); cbn [negb];
    [|intros [= <- <-]; left; by apply gets_of_two].
  destruct (id_rejected (query o));
    [intros [= <- <-]; left; by apply gets_of_two|].
  destruct (cache_lookup _ _ _) as [b|];
    [intros [= <- <-]; left; by apply gets_of_two|].
  destruct (transport _ _) as [b|e] eqn:Ht; intros [= <- <-]; right;
    repeat split; try done;
    cbn [trace log_event set_searchCache mutated set_settings];
    rewrite !gets_of_app; simpl; by rewrite !app_nil_r.
Qed.


End Requests.

(** ** More on the cache *)

Section MoreCache.
Variable transport : nat -> RequestOptions -> result Body.

(** A page fetch whose key has no valid entry asks the transport. *)
Lemma searchSingle_miss (o : Options) (w : World) :
  valid_text (query o) = true ->
  has_log (logger (settings w)) = true ->
  is_text (query o) = true ->
  id_rejected (query o) = false ->
  cache_lookup (cache_of w) (now w) (fullUri_of (settings w) o) = None ->
  fst (searchSingle transport o w)
  = transport (List.length (gets_of (trace w))) (requestOptions_of (settings w) o)
  /\ gets_of (trace (snd (searchSingle transport o w)))
     = gets_of (trace w) ++ [requestOptions_of (settings w) o].
Proof.
  intros Hv Hl Ht Hi Hlk. rewrite searchSingle_unfold. unfold searchSingle_flat, finish.
  rewrite Hv, Hl, Ht, Hi, Hlk. cbn [negb].
  destruct (transport _ _); cbn [fst snd trace log_event set_searchCache mutated set_settings];
    (split; [done|]); rewrite !gets_of_app; simpl; by rewrite !app_nil_r.
Qed.

Lemma cache_lookup_delete (c : Cache) (t : Z) (key : string) :
  cache_lookup (cache_delete c key) t key = None.
Proof. unfold cache_lookup, cache_delete. cbn [c_entries]. by rewrite lookup_delete_eq. Qed.

(** X10. A page fetch that failed at the transport leaves nothing in the
    cache: the same fetch made again, at any later time, issues the same
    request again and returns what the transport then answers. *)
Theorem failed_fetch_is_not_cached (o : Options) (w w1 : World) (e : Error) (d : Z) :
  searchSingle transport o w = (Err e, w1) ->
  gets_of (trace w1) <> gets_of (trace w) ->
  let req := requestOptions_of (settings w) o in
  gets_of (trace w1) = gets_of (trace w) ++ [req]
  /\ fst (searchSingle transport o (advance d w1))
     = transport (S (List.length (gets_of (trace w)))) req
  /\ gets_of (trace (snd (searchSingle transport o (advance d w1))))
     = gets_of (trace w) ++ [req; req].
Proof.
  intros H1 Hne req.
  pose proof (searchSingle_same_base _ _ _ _ _ H1) as Hbase.
  destruct (searchSingle_request_cases _ _ _ _ _ H1)
    as [Hsame | (Hv & Hl & Ht & Hi & Hlk & Hr & Hg & Hnow & Hc)]; [done|].
  destruct (same_base_request _ _ o Hbase Hv) as [Hreq Hkey].
  split; [done|].
  destruct (searchSingle_miss o (advance d w1)) as [Hres Hgets]; try done.
  - cbn [advance settings]. destruct Hbase as (_ & _ & _ & -> & _). done.
  - unfold cache_of. cbn [advance settings searchCache now]. rewrite Hc, Hkey.
    cbn [default from_option id]. apply cache_lookup_delete.
  - cbn [advance settings trace] in Hres, Hgets. rewrite Hreq, Hg in Hres, Hgets.
    split.
    + rewrite Hres. by rewrite length_app, Nat.add_1_r.
    + rewrite Hgets. by rewrite <- app_assoc.
Qed.

(** X11. Once the entry of a successful page fetch is no longer valid, the
    same fetch issues its request again and returns the new answer. *)
Theorem expired_entry_is_refetched (o : Options) (w w1 : World) (b : Body) (d : Z) :
  searchSingle transport o w = (Ok b, w1) ->
  entry_valid_at w1 (fullUri_of (settings w) o) (now w1 + d) = false ->
  let req := requestOptions_of (settings w) o in
  fst (searchSingle transport o (advance d w1))
  = transport (List.length (gets_of (trace w1))) req
  /\ gets_of (trace (snd (searchSingle transport o (advance d w1))))
     = gets_of (trace w1) ++ [req].
Proof.
  intros H1 Hexp req.
  pose proof (searchSingle_same_base _ _ _ _ _ H1) as Hbase.
  destruct (searchSingle_ok_inv _ _ _ _ _ H1)
    as (Hv & Hl & Ht & Hi & Hset & Hnow & (c1 & e & Hc1 & He & Hb) & _).
  destruct (same_base_request _ _ o Hbase Hv) as [Hreq Hkey].
  destruct (searchSingle_miss o (advance d w1)) as [Hres Hgets]; try done.
  - cbn [advance settings]. destruct Hbase as (_ & _ & _ & -> & _). done.
  - unfold cache_of. cbn [advance settings searchCache now]. rewrite Hc1, Hkey.
    cbn [default from_option id]. unfold entry_valid_at in Hexp. rewrite Hc1, He in Hexp.
    unfold cache_lookup. by rewrite He, Hexp.
  - cbn [advance settings trace] in Hres, Hgets. by rewrite Hreq in Hres, Hgets.
Qed.

(** A valid entry is still there after any page fetch. *)
Lemma entry_survives (o : Options) (w w' : World) (r : result Body) (c : Cache)
    (key : string) (e : CacheEntry) :
  searchSingle transport o w = (r, w') ->
  searchCache w = Some c ->
  c_entries c !! key = Some e ->
  entry_valid (c_maxAge c) (now w) e = true ->
  exists c', searchCache w' = Some c' /\ c_entries c' !! key = Some e
             /\ c_maxAge c' = c_maxAge c.
Proof.
  intros H Hc He Hval. rewrite searchSingle_unfold in H.
  unfold searchSingle_flat, finish, cache_of in H. rewrite Hc in H.
  cbn [default from_option id] in H.
  repeat case_match; injection H as <- <-;
    cbn [searchCache log_event set_searchCache mutated set_settings];
    try (by exists c).
  - eexists. split; [done|]. cbn [cache_store c_entries c_maxAge]. split; [|done].
    rewrite lookup_insert_ne; [done|]. intros Hk.
    match goal with Hlk : cache_lookup c _ _ = None |- _ =>
      unfold cache_lookup in Hlk; rewrite Hk, He, Hval in Hlk; discriminate Hlk end.
  - eexists. split; [done|]. cbn [cache_delete c_entries c_maxAge]. split; [|done].
    rewrite lookup_delete_ne; [done|]. intros Hk.
    match goal with Hlk : cache_lookup c _ _ = None |- _ =>
      unfold cache_lookup in Hlk; rewrite Hk, He, Hval in Hlk; discriminate Hlk end.
Qed.

(** X12. A body that is in the cache and valid is still served after any
    other page fetch on the same client, successful or not: fetching it
    again returns it without a request. *)
Theorem cached_body_survives_other_fetches (o o' : Options) (w w1 w2 : World) (b : Body)
    (r' : result Body) :
  searchSingle transport o w = (Ok b, w1) ->
  entry_valid_at w1 (fullUri_of (settings w) o) (now w1) = true ->
  searchSingle transport o' w1 = (r', w2) ->
  exists w3, searchSingle transport o w2 = (Ok b, w3)
             /\ gets_of (trace w3) = gets_of (trace w2).
Proof.
  intros H1 Hval H2.
  pose proof (searchSingle_same_base _ _ _ _ _ H1) as Hb1.
  pose proof (searchSingle_same_base _ _ _ _ _ H2) as Hb2.
  pose proof (same_base_trans _ _ _ Hb1 Hb2) as Hb.
  destruct (searchSingle_ok_inv _ _ _ _ _ H1)
    as (Hv & Hl & Ht & Hi & Hset & Hnow & (c1 & e & Hc1 & He & Hbody) & _).
  destruct (same_base_request _ _ o Hb Hv) as [_ Hkey].
  unfold entry_valid_at in Hval. rewrite Hc1, He in Hval.
  destruct (entry_survives _ _ _ _ _ _ _ H2 Hc1 He Hval) as (c2 & Hc2 & He2 & Hage).
  assert (Hnow2 : now w2 = now w1).
  { rewrite searchSingle_unfold in H2. unfold searchSingle_flat, finish in H2.
    by repeat case_match; injection H2 as <- <-. }
  apply searchSingle_hit; try done.
  - destruct Hb as (_ & _ & _ & -> & _). done.
  - unfold cache_of. rewrite Hc2, Hkey. cbn [default from_option id].
    unfold cache_lookup. rewrite He2, Hage, Hnow2, Hval. by rewrite Hbody.
Qed.
End MoreCache.

(** ** Numbers as text *)

Lemma append_cons (x : ascii) (a b : string) : String x a +:+ b = String x (a +:+ b).
Proof. reflexivity. Qed.

Lemma append_assoc (a b c : string) : (a +:+ b) +:+ c = a +:+ (b +:+ c).
Proof. induction a as [|x a IH]; [done|]. rewrite !append_cons. by f_equal. Qed.

Lemma append_nil_r (a : string) : a +:+ "" = a.
Proof. induction a as [|x a IH]; [done|]. rewrite append_cons. by f_equal. Qed.

Lemma length_append (a b : string) :
  String.length (a +:+ b) = (String.length a + String.length b)%nat.
Proof. induction a as [|x a IH]; [done|]. rewrite append_cons. simpl. by f_equal. Qed.

Lemma digit_val_pretty_N_char (r : N) :
  (r < 10)%N -> digit_val (pretty_N_char r) = Some (Z.of_N r).
Proof.
  intros H.
  assert (r = 0 \/ r = 1 \/ r = 2 \/ r = 3 \/ r = 4 \/ r = 5 \/ r = 6 \/ r = 7 \/ r = 8
          \/ r = 9)%N as Hr by lia.
  by repeat (destruct Hr as [-> | Hr]; [done|]); subst.
Qed.

Lemma digit_not_space (c : ascii) (d : Z) : digit_val c = Some d -> is_space c = false.
Proof. by destruct c as [[] [] [] [] [] [] [] []]. Qed.

Lemma digit_split_sign (c : ascii) (d : Z) (r : string) :
  digit_val c = Some d -> split_sign (String c r) = (false, String c r).
Proof. by destruct c as [[] [] [] [] [] [] [] []]. Qed.

(** The digits that [pretty] writes for [x], read back by [parse_digits]. *)
Lemma pretty_N_go_digits (x : N) :
  exists D,
    (forall s, pretty_N_go x s = D +:+ s)
    /\ (forall acc s, parse_digits acc (D +:+ s)
                      = parse_digits (acc * 10 ^ Z.of_nat (String.length D) + Z.of_N x) s)
    /\ ((0 < x)%N -> exists c d D', D = String c D' /\ digit_val c = Some d).
Proof.
  induction (N.lt_wf_0 x) as [x _ IH].
  assert (x = 0 \/ 0 < x)%N as [-> | Hpos] by lia.
  - exists "". split; [done|]. split; [|lia]. intros acc s.
    change ("" +:+ s) with s. f_equal. simpl. lia.
  - destruct (IH (x `div` 10)%N) as (D' & Hgo & Hparse & Hfirst); [by apply N.div_lt|].
    pose proof (digit_val_pretty_N_char (x `mod` 10)%N) as Hd.
    assert (Hlt : (x `mod` 10 < 10)%N) by by apply N.mod_lt.
    specialize (Hd Hlt).
    exists (D' +:+ String (pretty_N_char (x `mod` 10)) "").
    split; [|split].
    + intros s. rewrite pretty_N_go_step by done. by rewrite Hgo, append_assoc.
    + intros acc s. rewrite append_assoc, append_cons. change ("" +:+ s) with s.
      rewrite Hparse. cbn [parse_digits]. rewrite Hd.
      f_equal. rewrite length_append. cbn [String.length].
      rewrite Nat.add_1_r, Nat2Z.inj_succ, Z.pow_succ_r by lia.
      pose proof (N.div_mod x 10 ltac:(lia)) as Hdm.
      assert (Z.of_N x = 10 * Z.of_N (x `div` 10) + Z.of_N (x `mod` 10)) by lia.
      lia.
    + intros _. destruct (N.eq_0_gt_0_cases (x `div` 10)) as [H0 | H0].
      * rewrite H0 in Hgo. specialize (Hgo ""). rewrite pretty_N_go_0 in Hgo.
        rewrite append_nil_r in Hgo. subst D'. by eexists _, _, _.
      * destruct (Hfirst H0) as (c & d & D'' & -> & Hc). rewrite append_cons.
        by eexists _, _, _.
Qed.

(** A decimal number followed by text that does not start with a digit
    parses as the number. *)
Lemma parseInt_pretty_pos (p : positive) (rest : string) :
  no_leading_digit rest = true ->
  parseInt (pretty (Z.pos p) +:+ rest) = Some (Z.pos p)
  /\ parseInt ("-" +:+ pretty (Z.pos p) +:+ rest) = Some (Z.neg p).
Proof.
  intros Hrest.
  destruct (pretty_N_go_digits (N.pos p)) as (D & Hgo & Hparse & Hfirst).
  destruct Hfirst as (c & d & D' & -> & Hc); [lia|].
  change (pretty (Z.pos p)) with (pretty_N_go (N.pos p) "").
  rewrite Hgo, append_nil_r.
  assert (Hval : parse_digits 0 (String c D' +:+ rest) = Z.pos p).
  { rewrite Hparse. rewrite Z.mul_0_l, Z.add_0_l. change (Z.of_N (N.pos p)) with (Z.pos p).
    destruct rest as [|c' rest']; [done|]. cbn [parse_digits].
    unfold no_leading_digit in Hrest. by destruct (digit_val c'). }
  split.
  - unfold parseInt. rewrite append_cons. cbn [skip_space].
    rewrite (digit_not_space _ _ Hc), (digit_split_sign _ _ _ Hc), Hc.
    rewrite <- append_cons. by rewrite Hval.
  - unfold parseInt. rewrite (append_cons "-"). change ("" +:+ ?x) with x.
    cbn [skip_space]. change (is_space "-") with false. cbv iota.
    change (split_sign (String "-" ?x)) with (true, x).
    rewrite append_cons, Hc. rewrite <- append_cons. by rewrite Hval.
Qed.

Lemma parseInt_pretty (z : Z) (rest : string) :
  no_leading_digit rest = true -> parseInt (pretty z +:+ rest) = Some z.
Proof.
  intros Hrest. destruct z as [|p|p].
  - change (pretty 0 +:+ rest) with (String "0" rest). unfold parseInt.
    cbn [skip_space]. change (is_space "0") with false. cbv iota.
    change (split_sign (String "0" rest)) with (false, String "0" rest).
    cbv iota beta. change (digit_val "0") with (Some 0). cbn [parse_digits].
    change (digit_val "0") with (Some 0). cbv iota.
    destruct rest as [|c rest']; [done|]. cbn [parse_digits].
    unfold no_leading_digit in Hrest. by destruct (digit_val c).
  - by apply parseInt_pretty_pos.
  - change (pretty (Z.neg p)) with ("-" +:+ pretty (Z.pos p)).
    rewrite append_assoc. by apply parseInt_pretty_pos.
Qed.

Lemma pretty_nonempty (z : Z) : pretty z <> "".
Proof.
  intros H. pose proof (parseInt_pretty z "" eq_refl) as Hp.
  rewrite append_nil_r, H in Hp. discriminate Hp.
Qed.

Lemma pretty_not_blank (z : Z) : Validator.notEmpty (pretty z) = true.
Proof.
  pose proof (parseInt_pretty z "" eq_refl) as Hp. rewrite append_nil_r in Hp.
  unfold Validator.notEmpty. destruct (all_space (pretty z)) eqn:E; [|done].
  exfalso. revert Hp E. unfold parseInt. generalize (pretty z). intros s.
  assert (Hskip : all_space s = true -> skip_space s = "").
  { induction s as [|c s IH]; [done|]. simpl. destruct (is_space c); [|done]. exact IH. }
  intros Hp E. rewrite (Hskip E) in Hp. discriminate Hp.
Qed.

Section Counts.
Variable transport : nat -> RequestOptions -> result Body.

(** X13. A count given as a non-zero integer, or as text that starts with
    the decimal form of an integer, is read back as that integer (within
    the range where a number prints as its decimal digits): the pages
    scheduled are 0, 40, ..., 40(n-1). *)
Theorem numeric_count_is_read_back (s : Settings) (o : Options) (n : Z) :
  Z.abs n <= 2 ^ 53 ->
  (sets o = JNum n /\ n <> 0)
  \/ (exists rest, sets o = JStr (pretty n +:+ rest) /\ no_leading_digit rest = true) ->
  Validator.toInt (Validator.sanitize (requested_sets s o)) = Some n
  /\ map (Z.mul 40)
       (loop_indices (Validator.toInt (Validator.sanitize (requested_sets s o))))
     = map (fun i => 40 * Z.of_nat i) (seq 0 (Z.to_nat n)).
Proof.
  intros _ H.
  assert (Hn : Validator.toInt (Validator.sanitize (requested_sets s o)) = Some n).
  { unfold requested_sets, js_or. destruct H as [[-> Hne] | (rest & -> & Hrest)].
    - cbn [truthy]. apply Z.eqb_neq in Hne. rewrite Hne. cbn [negb Validator.sanitize to_string].
      unfold Validator.toInt. by rewrite <- (append_nil_r (pretty n)), parseInt_pretty.
    - cbn [truthy]. destruct (String.eqb (pretty n +:+ rest) "") eqn:E.
      + apply String.eqb_eq in E. destruct (pretty n) eqn:Ep; [by destruct (pretty_nonempty n)|].
        discriminate E.
      + cbn [negb Validator.sanitize to_string]. unfold Validator.toInt.
        by apply parseInt_pretty. }
  split; [done|]. rewrite Hn. unfold loop_indices. by rewrite map_map.
Qed.

(** X14. [searchBy] accepts a value that is a number, such as an ISBN: it
    searches for its decimal text between quote characters, although
    [search] itself rejects a query that is a number. *)
Theorem searchBy_numeric_value (o : Options) (w : World) (z : Z) (f p : string) :
  has_log (logger (settings w)) = true ->
  query o = JNum z -> Z.abs z <= 2 ^ 53 ->
  field o = JStr f -> own_get f fields = Some p ->
  searchBy transport o w
  = search transport (plain_query (p +:+ quote +:+ pretty z +:+ quote)) w.
Proof.
  intros Hl Hq _ Hf Hp.
  destruct (own_get_fields _ _ Hp) as (Hf0 & Hp0 & Hget).
  unfold searchBy, bind, guard, logger_log. rewrite Hq, Hf. cbn [Validator.check to_string].
  rewrite (pretty_not_blank z), (notEmpty_notNull _ (pretty_not_blank z)). cbn [andb ret].
  unfold Validator.notNull.
  destruct (String.eqb f "") eqn:Ef; [by apply String.eqb_eq in Ef|]. cbn [negb ret].
  rewrite Hget. cbn [property_truthy property_text].
  destruct (String.eqb p "") eqn:Ep; [by apply String.eqb_eq in Ep|]. cbn [negb ret].
  by rewrite Hl.
Qed.
End Counts.

(** ** The constructor *)

Lemma obj_get_absent (k : string) (o : jsobj) :
  ~ In k (map fst o) -> obj_get k o = JUndefined.
Proof.
  induction o as [|[k0 v] o IH]; [done|]. simpl. intros H.
  destruct (String.eqb k k0) eqn:E.
  - apply String.eqb_eq in E as ->. destruct H. by left.
  - apply IH. intros Hin. apply H. by right.
Qed.

(** [extend]: a property that the source gives, and that is not
    [undefined], replaces the one of the target; every other property of
    the target stays. *)
Lemma extend_get (t src : jsobj) (k : string) :
  NoDup (map fst src) ->
  obj_get k (extend t src)
  = match obj_get k src with JUndefined => obj_get k t | v => v end.
Proof.
  unfold extend. revert t. induction src as [|[k0 v0] src IH]; intros t Hnd; [done|].
  apply NoDup_cons in Hnd as [Hk0 Hnd]. cbn [fold_left fst snd].
  rewrite IH by done. cbn [obj_get].
  destruct (String.eqb k k0) eqn:E.
  - apply String.eqb_eq in E as ->.
    rewrite obj_get_absent by (by rewrite <- list_elem_of_In).
    destruct v0; try done; by rewrite obj_get_set_eq.
  - apply String.eqb_neq in E.
    destruct (obj_get k src) eqn:Eg; try done.
    destruct v0; try done; by rewrite obj_get_set_ne.
Qed.

(** X15. The constructor merges the query parameters field by field: a
    parameter that the caller gives, and that is not [undefined], replaces
    the default; every other parameter keeps its default. *)
Theorem constructor_merges_queryParams (u : UserOptions) (k : string) :
  NoDup (map fst (uo_queryParams u)) ->
  obj_get k (queryParams (settings (GoogleBooks u)))
  = match obj_get k (uo_queryParams u) with
    | JUndefined => obj_get k (queryParams defaults)
    | v => v
    end.
Proof. intros H. unfold GoogleBooks, merge_settings. cbn [settings queryParams]. by apply extend_get. Qed.

Section StartIndex.
Variable transport : nat -> RequestOptions -> result Body.

(** X16. The request of a page fetch carries the query as [q] and, as
    [startIndex], 0 when the start index given is not a number or is
    negative, the start index given otherwise ([NaN] included, which
    [_.isNumber] accepts). *)
Theorem request_start_index (o : Options) (w w' : World) (r : result Body)
    (req : RequestOptions) :
  searchSingle transport o w = (r, w') ->
  gets_of (trace w') = gets_of (trace w) ++ [req] ->
  obj_get "q" (qs req) = query o
  /\ obj_get "startIndex" (qs req)
     = match startIndex o with
       | JNum z => if z <? 0 then JNum 0 else JNum z
       | JNaN => JNaN
       | _ => JNum 0
       end.
Proof.
  intros H Hg.
  destruct (searchSingle_request_cases _ _ _ _ _ H)
    as [Hsame | (Hv & _ & _ & _ & _ & _ & Hreq & _)].
  - rewrite Hsame in Hg. apply (f_equal (@List.length _)) in Hg.
    rewrite length_app in Hg. simpl in Hg. lia.
  - rewrite Hreq in Hg. apply app_inv_head in Hg. injection Hg as <-.
    cbn [qs requestOptions_of]. rewrite !merged_params_get by by apply valid_text_defined.
    split; [done|]. cbn. unfold normalize_startIndex.
    destruct (startIndex o) as [| | | z | |]; try done.
Qed.
End StartIndex.

Section Success.
Variable transport : nat -> RequestOptions -> result Body.

End Success.

(** ** A search made twice *)

Section Twice.
Variable transport : nat -> RequestOptions -> result Body.







End Twice.

(** ** Cache keys *)

















(** ** Instances of the further properties *)

Lemma pair_of_fst {A B : Type} (p : A * B) (a : A) : fst p = a -> p = (a, snd p).
Proof. intros <-. by destruct p. Qed.


Lemma search_nonpositive_count_witness :
  search echo_transport (tolkien JUndefined (JStr "0")) example_client = (Ok [], example_client)
  /\ search echo_transport (tolkien JUndefined (JNum (-2))) example_client
     = (Ok [], example_client).
Proof.
  split.
  - apply (search_nonpositive_count echo_transport _ _ 0); [reflexivity | lia].
  - apply (search_nonpositive_count echo_transport _ _ (-2)); [reflexivity | lia].
Defined.

Lemma search_invalid_query_witness :
  exists w', search echo_transport
               {| query := JStr "  "; startIndex := JUndefined; sets := JNum 2;
                  field := JUndefined |} example_client = (Err InvalidQuery, w')
             /\ gets_of (trace w') = [].
Proof.
  destruct (search_invalid_query echo_transport
              {| query := JStr "  "; startIndex := JUndefined; sets := JNum 2;
                 field := JUndefined |} example_client 2)
    as (w' & Hs & _ & _ & Hg & _); [reflexivity | reflexivity | lia |].
  exists w'. split; [exact Hs | exact Hg].
Defined.



Lemma search_empty_identifier_witness :
  exists w', search echo_transport (plain_query ("id:" +:+ quote)) example_client
             = (Err InvalidIdentifier, w')
             /\ gets_of (trace w') = [].
Proof.
  destruct (search_empty_identifier echo_transport (plain_query ("id:" +:+ quote))
              example_client quote 1)
    as (w' & Hs & _ & Hg); [reflexivity | reflexivity | reflexivity | reflexivity | lia |].
  exists w'. split; [exact Hs | exact Hg].
Defined.

Lemma request_independent_of_history_witness :
  let w' := snd (search echo_transport (plain_query "id:abc") example_client) in
  queryParams (settings w') <> queryParams (settings example_client)
  /\ fullUri_of (settings w') (tolkien JUndefined JUndefined)
     = fullUri_of (settings example_client) (tolkien JUndefined JUndefined).
Proof.
  intros w'. split.
  - vm_compute. discriminate.
  - apply (request_independent_of_history echo_transport (tolkien JUndefined JUndefined)
             (plain_query "id:abc") example_client). reflexivity.
Defined.

Lemma failed_fetch_is_not_cached_witness :
  let o := tolkien (JNum 0) JUndefined in
  let r1 := searchSingle (failing_from 0) o example_client in
  let r2 := searchSingle (failing_from 0) o (advance 5 (snd r1)) in
  fst r1 = Err (TransportError "ECONNRESET")
  /\ List.length (gets_of (trace (snd r1))) = 1%nat
  /\ List.length (gets_of (trace (snd r2))) = 2%nat.
Proof.
  intros o r1 r2.
  destruct (failed_fetch_is_not_cached (failing_from 0) o example_client (snd r1)
              (TransportError "ECONNRESET") 5)
    as (H1 & _ & H2); [apply pair_of_fst; vm_compute; reflexivity | vm_compute; discriminate |].
  split; [vm_compute; reflexivity|]. split.
  - rewrite H1. reflexivity.
  - unfold r2. rewrite H2. reflexivity.
Defined.

Lemma expired_entry_is_refetched_witness :
  let o := tolkien (JNum 0) JUndefined in
  let r1 := searchSingle echo_transport o custom_client in
  let r2 := searchSingle echo_transport o (advance 1000 (snd r1)) in
  fst r1 = Ok "page 0 of https://www.googleapis.com/books/v1/volumes"
  /\ fst r2 = Ok "page 1 of https://www.googleapis.com/books/v1/volumes"
  /\ List.length (gets_of (trace (snd r2))) = 2%nat.
Proof.
  intros o r1 r2.
  destruct (expired_entry_is_refetched echo_transport o custom_client (snd r1)
              "page 0 of https://www.googleapis.com/books/v1/volumes" 1000)
    as (H1 & H2); [apply pair_of_fst; vm_compute; reflexivity | vm_compute; reflexivity |].
  split; [vm_compute; reflexivity|]. split.
  - unfold r2. rewrite H1. vm_compute. reflexivity.
  - unfold r2. rewrite H2. vm_compute. reflexivity.
Defined.

Lemma cached_body_survives_other_fetches_witness :
  let o := tolkien (JNum 0) JUndefined in
  let r1 := searchSingle echo_transport o example_client in
  let r2 := searchSingle echo_transport (plain_query "id:abc") (snd r1) in
  exists w3, searchSingle echo_transport o (snd r2)
             = (Ok "page 0 of https://www.googleapis.com/books/v1/volumes", w3)
             /\ List.length (gets_of (trace w3)) = 2%nat.
Proof.
  intros o r1 r2.
  destruct (cached_body_survives_other_fetches echo_transport o (plain_query "id:abc")
              example_client (snd r1) (snd r2)
              "page 0 of https://www.googleapis.com/books/v1/volumes" (fst r2))
    as (w3 & H3 & Hg); [apply pair_of_fst; vm_compute; reflexivity | vm_compute; reflexivity
                        | apply surjective_pairing |].
  exists w3. split; [exact H3|]. rewrite Hg. vm_compute. reflexivity.
Defined.

Lemma numeric_count_is_read_back_witness :
  Validator.toInt (Validator.sanitize
                     (requested_sets defaults (tolkien JUndefined (JNum 3)))) = Some 3
  /\ Validator.toInt (Validator.sanitize
                        (requested_sets defaults (tolkien JUndefined (JStr "3 pages"))))
     = Some 3.
Proof.
  split.
  - apply (numeric_count_is_read_back defaults (tolkien JUndefined (JNum 3)) 3); [lia|].
    left. split; [reflexivity | discriminate].
  - apply (numeric_count_is_read_back defaults (tolkien JUndefined (JStr "3 pages")) 3);
      [lia|].
    right. exists " pages". split; reflexivity.
Defined.

Lemma searchBy_numeric_value_witness :
  let o := {| query := JNum 9780261103573; startIndex := JUndefined; sets := JUndefined;
              field := JStr "isbn" |} in
  searchBy echo_transport o example_client
  = search echo_transport (plain_query ("isbn:" +:+ quote +:+ "9780261103573" +:+ quote))
      example_client.
Proof.
  intros o.
  apply (searchBy_numeric_value echo_transport o example_client 9780261103573 "isbn" "isbn:");
    [reflexivity | reflexivity | lia | reflexivity | reflexivity].
Defined.

Lemma constructor_merges_queryParams_witness :
  obj_get "maxResults" (queryParams (settings custom_client)) = JNum 10
  /\ obj_get "country" (queryParams (settings custom_client)) = JStr "US"
  /\ obj_get "printType" (queryParams (settings custom_client)) = JStr "books"
  /\ obj_get "langRestrict" (queryParams (settings custom_client)) = JStr "en".
Proof.
  assert (Hnd : NoDup (map fst (uo_queryParams custom_options))).
  { cbn. repeat constructor; cbn; intros H;
      repeat (apply elem_of_cons in H as [H | H]; [discriminate H|]);
      by apply elem_of_nil in H. }
  split; [|split; [|split]].
  - exact (constructor_merges_queryParams custom_options "maxResults" Hnd).
  - exact (constructor_merges_queryParams custom_options "country" Hnd).
  - exact (constructor_merges_queryParams custom_options "printType" Hnd).
  - exact (constructor_merges_queryParams custom_options "langRestrict" Hnd).
Defined.

Lemma request_start_index_witness :
  let o := tolkien (JNum (-7)) JUndefined in
  let r := searchSingle echo_transport o example_client in
  exists req, gets_of (trace (snd r)) = [req]
              /\ obj_get "startIndex" (qs req) = JNum 0
              /\ obj_get "q" (qs req) = JStr "Tolkien".
Proof.
  intros o r. eexists. split; [vm_compute; reflexivity|].
  destruct (request_start_index echo_transport o example_client (snd r) (fst r)
              (requestOptions_of (settings example_client) o))
    as [Hq Hs]; [apply surjective_pairing | vm_compute; reflexivity |].
  split; [exact Hs | exact Hq].
Defined.




